(** * Inventory: a grid of items, an equipped slot and two running aggregates

    Shallow embedding of [Inventory.cpp].  The class keeps a (possibly
    jagged) [std::vector<std::vector<Item>>], a raw owning pointer to the
    equipped item, a [float] total weight and a [size_t] item count.

    - [size_t] is a 64-bit unsigned integer.  The count, the one [size_t]
      the class does arithmetic on, is a [Z] with the wrap-around of [++]
      and [--] written out; row and column indices are only ever compared
      with sizes and are natural numbers.
    - [float] is IEEE-754 binary32, taken from the Standard Library's
      executable specification of floating-point numbers ([SpecFloat] at
      precision 24 and maximal exponent 128).  The methods only ever add to
      or subtract from the weight, so the embedding is written over a small
      class of weight arithmetics and instantiated at binary32, the
      program's.  A weight has an exact value, an integer number of units;
      an addition rounds when the value of the sum is not the sum of the
      values.
    - [Item*] is an address into a heap of [Item] objects; [delete] removes
      the object from the heap and is undefined on an address that holds
      none.
    - A method is a computation over the receiver object and the heap that
      returns, throws, or runs into undefined behaviour (unchecked
      [operator[]] out of range, [delete] of a dangling pointer). *)

From Stdlib Require Import ZArith Floats.SpecFloat.
From stdpp Require Import gmap list strings relations.

(** ** [size_t] *)

Definition size_t_modulus : Z := 2 ^ 64.

Definition size_t_wrap (z : Z) : Z := (z mod size_t_modulus)%Z.

(** [c++] and [c--] on a [size_t]. *)
Definition size_t_incr (c : Z) : Z := size_t_wrap (c + 1).
Definition size_t_decr (c : Z) : Z := size_t_wrap (c - 1).

(** ** Weight arithmetic *)

Class Weight (W : Type) := {
  w_zero : W;
  w_add : W → W → W;
  w_sub : W → W → W
}.

(** The exact value of a weight, where it has one, as an integer number
    of units that the arithmetic fixes. *)
Class WeightValue (W : Type) := w_val : W → option Z.

Definition add_values (ox oy : option Z) : option Z :=
  x ← ox; y ← oy; Some (x + y)%Z.

(** The exact sum of the values of a sequence of weights. *)
Definition sum_values {W : Type} `{WeightValue W} (ws : list W) : option Z :=
  foldr (λ x acc, add_values (w_val x) acc) (Some 0%Z) ws.

(** C++ [float]: binary32. *)
Definition float : Type := spec_float.

Definition float_prec : Z := 24.
Definition float_emax : Z := 128.

(** The [float] nearest to an integer literal. *)
Definition float_of_Z (z : Z) : float :=
  binary_normalize float_prec float_emax z 0 false.

#[global] Instance float_weight : Weight float := {|
  w_zero := S754_zero false;
  w_add := SFadd float_prec float_emax;
  w_sub := SFsub float_prec float_emax
|}.

(** The value of a finite binary32 number, [(-1)^s * m * 2^e], in units of
    [2 ^ -149], the least positive binary32 number; infinities and NaN
    have none. *)
Definition float_units (x : float) : option Z :=
  match x with
  | S754_zero _ => Some 0%Z
  | S754_finite s m e =>
      if (-149 <=? e)%Z
      then Some (if s then - (Z.pos m * 2 ^ (e + 149)) else Z.pos m * 2 ^ (e + 149))%Z
      else None
  | S754_infinity _ => None
  | S754_nan => None
  end.

#[global] Instance float_value : WeightValue float := float_units.

(** ** Items *)

(** Modelled from the spec: [Item] and its type enumeration are declared in a
    header that is not among the sources.  The spec fixes a [type]
    discriminator with a distinguished NONE variant and a [weight]; the
    other enumerators are kept as opaque tags. *)
Inductive ItemType : Type :=
  | NONE
  | OTHER (tag : N).

#[global] Instance ItemType_eq_dec : EqDecision ItemType.
Proof. solve_decision. Defined.

Module Item.
Record t (W : Type) : Type := mk {
  type_ : ItemType;
  weight_ : W
}.
#[global] Arguments mk {W} type_ weight_.
#[global] Arguments type_ {W} _.
#[global] Arguments weight_ {W} _.

(** Modelled from the spec: the default-constructed [Item()] is a
    NONE-type item (the default grid is "a 10×10 grid of NONE-type
    items"); its weight is taken to be zero. *)
Definition default {W} `{Weight W} : t W := mk NONE w_zero.
End Item.

Abbreviation Item := Item.t.

(** ** Pointers, exceptions, outcomes *)

Definition ptr : Type := N.
Definition nullptr : ptr := 0%N.

Inductive exception : Type :=
  | out_of_range (what : string).

Inductive outcome (A : Type) : Type :=
  | Returned (a : A)
  | Thrown (e : exception)
  | Undefined.
#[global] Arguments Returned {A} a.
#[global] Arguments Thrown {A} e.
#[global] Arguments Undefined {A}.

(** What the caller sees of a call: its result without the final state. *)
Definition value {A S : Type} (o : outcome (A * S)) : outcome A :=
  match o with
  | Returned (a, _) => Returned a
  | Thrown e => Thrown e
  | Undefined => Undefined
  end.

Module Inventory.
Section Inventory.
Context {W : Type} `{Weight W} `{WeightValue W}.

(** The data members of [Inventory]. *)
Record t : Type := mk {
  inventory_grid_ : list (list (Item W));
  equipped_ : ptr;
  weight_ : W;
  item_count_ : Z
}.

(** The receiver object and the heap of [Item]s allocated with [new]. *)
Record world : Type := World {
  this : t;
  heap : gmap N (Item W)
}.

Definition M (A : Type) : Type := world → outcome (A * world).

#[global] Instance M_ret : MRet M := λ A a w, Returned (a, w).

#[global] Instance M_bind : MBind M := λ A B f m w,
  match m w with
  | Returned (a, w') => f a w'
  | Thrown e => Thrown e
  | Undefined => Undefined
  end.

#[global] Instance M_throw : MThrow exception M := λ A e w, Thrown e.

Definition get_this : M t := λ w, Returned (this w, w).

Definition put_this (s : t) : M unit :=
  λ w, Returned ((), World s (heap w)).

(** [v[i]] on a [std::vector]: unchecked, undefined out of range. *)
Definition index {A : Type} (v : list A) (i : nat) : M A :=
  λ w, match v !! i with
       | Some x => Returned (x, w)
       | None => Undefined
       end.

(** [delete p]: releases the object at [p]; undefined when [p] does not
    point to a live object. *)
Definition delete_ (p : ptr) : M unit :=
  λ w, match heap w !! p with
       | Some _ => Returned ((), World (this w) (delete p (heap w)))
       | None => Undefined
       end.

(** Assignments to single members. *)
Definition set_inventory_grid (g : list (list (Item W))) (s : t) : t :=
  mk g (equipped_ s) (weight_ s) (item_count_ s).
Definition set_equipped (p : ptr) (s : t) : t :=
  mk (inventory_grid_ s) p (weight_ s) (item_count_ s).
Definition set_weight (x : W) (s : t) : t :=
  mk (inventory_grid_ s) (equipped_ s) x (item_count_ s).
Definition set_item_count (c : Z) (s : t) : t :=
  mk (inventory_grid_ s) (equipped_ s) (weight_ s) c.

(** *** Constructor [Inventory::Inventory] *)

(** The body of the inner loop: one cell of the scan. *)
Definition scan_cell (acc : W * Z) (it : Item W) : W * Z :=
  if decide (Item.type_ it ≠ NONE)
  then (w_add acc.1 (Item.weight_ it), size_t_incr acc.2)
  else acc.

(** The inner loop over [j], then the outer loop over [i]. *)
Definition scan_row (acc : W * Z) (row : list (Item W)) : W * Z :=
  foldl scan_cell acc row.

Definition scan (items : list (list (Item W))) : W * Z :=
  foldl scan_row (w_zero, 0%Z) items.

Definition ctor (items : list (list (Item W))) (equipped : ptr) : t :=
  let acc := scan items in
  mk items equipped acc.1 acc.2.

(** Modelled from the spec: the default arguments of the constructor are
    declared in the missing header; the constructor's comment and the
    spec give a 10x10 grid of default-constructed items and [nullptr]. *)
Definition default_items : list (list (Item W)) :=
  replicate 10 (replicate 10 Item.default).

Definition ctor_default : t := ctor default_items nullptr.

(** *** Accessors and the equipped slot *)

Definition getEquipped : M ptr :=
  s ← get_this; mret (equipped_ s).

Definition equip (itemToEquip : ptr) : M unit :=
  s ← get_this; put_this (set_equipped itemToEquip s).

Definition discardEquipped : M unit :=
  s ← get_this;
  if decide (equipped_ s ≠ nullptr) then
    delete_ (equipped_ s);;
    s ← get_this;
    put_this (set_equipped nullptr s)
  else mret ().

Definition getItems : M (list (list (Item W))) :=
  s ← get_this; mret (inventory_grid_ s).

Definition getWeight : M W :=
  s ← get_this; mret (weight_ s).

Definition getCount : M Z :=
  s ← get_this; mret (item_count_ s).

(** The test [row >= inventory_grid_.size() || col >=
    inventory_grid_[row].size()]: the right operand, which indexes the
    grid, is evaluated only when the left one is false. *)
Definition out_of_bounds (row col : nat) : M bool :=
  s ← get_this;
  if bool_decide (length (inventory_grid_ s) ≤ row) then mret true
  else
    r ← index (inventory_grid_ s) row;
    mret (bool_decide (length r ≤ col)).

Definition at_ (row col : nat) : M (Item W) :=
  oob ← out_of_bounds row col;
  if oob : bool then mthrow (out_of_range "Index out of bounds")
  else
    s ← get_this;
    r ← index (inventory_grid_ s) row;
    index r col.

(** *** Mutation of the grid *)

(** Modelled from the spec: the source file is cut off after the comment
    of [store]; the body follows the spec and that comment.  The spec
    leaves open how an index outside the grid is reported; this model
    takes the same test and the same exception as [at], so that [false]
    is returned for an occupied cell only, as the comment says.  The cell
    is overwritten only when it holds a NONE-type item; then the item is
    written, the count is incremented and the item's weight is added. *)
Definition store (row col : nat) (pickup : Item W) : M bool :=
  oob ← out_of_bounds row col;
  if oob : bool then mthrow (out_of_range "Index out of bounds")
  else
    s ← get_this;
    r ← index (inventory_grid_ s) row;
    cell ← index r col;
    if decide (Item.type_ cell ≠ NONE) then mret false
    else
      put_this (set_inventory_grid
                  (<[row := <[col := pickup]> r]> (inventory_grid_ s)) s);;
      s ← get_this;
      put_this (set_item_count (size_t_incr (item_count_ s)) s);;
      s ← get_this;
      put_this (set_weight (w_add (weight_ s) (Item.weight_ pickup)) s);;
      mret true.

(** Modelled from the spec: no operation that empties a cell is among the
    sources.  The spec asks for the counterpart of [store]: a cell that
    holds an item is reset to a NONE-type item, the count is decremented
    and the removed item's weight is subtracted; an empty cell crosses no
    boundary and is left alone. *)
Definition remove (row col : nat) : M bool :=
  oob ← out_of_bounds row col;
  if oob : bool then mthrow (out_of_range "Index out of bounds")
  else
    s ← get_this;
    r ← index (inventory_grid_ s) row;
    cell ← index r col;
    if decide (Item.type_ cell ≠ NONE) then
      put_this (set_inventory_grid
                  (<[row := <[col := Item.default]> r]> (inventory_grid_ s)) s);;
      s ← get_this;
      put_this (set_item_count (size_t_decr (item_count_ s)) s);;
      s ← get_this;
      put_this (set_weight (w_sub (weight_ s) (Item.weight_ cell)) s);;
      mret true
    else mret false.

(** *** Reachable states *)

(** The mutating calls a client can make on a constructed object. *)
Inductive call : Type :=
  | Equip (itemToEquip : ptr)
  | DiscardEquipped
  | Store (row col : nat) (pickup : Item W)
  | Remove (row col : nat).

Definition exec (c : call) : M unit :=
  match c with
  | Equip p => equip p
  | DiscardEquipped => discardEquipped
  | Store row col pickup => store row col pickup;; mret ()
  | Remove row col => remove row col;; mret ()
  end.

(** The history of an object: the calls that returned and the state each
    was made in, the latest first.  A call that throws does so before it
    changes anything, so it adds no state. *)
Inductive history (w0 : world) : list (world * call) → world → Prop :=
  | history_nil : history w0 [] w0
  | history_cons tr w c w' :
      history w0 tr w → exec c w = Returned ((), w') →
      history w0 ((w, c) :: tr) w'.

(** The cell a call addresses, if the grid has it. *)
Definition cell_at (s : t) (row col : nat) : option (Item W) :=
  inventory_grid_ s !! row ≫= (λ r, r !! col).

(** A call in which [store] writes no NONE-type item: where it finds an
    empty cell, the item it is given has a type. *)
Definition writes_item (wc : world * call) : Prop :=
  match wc.2 with
  | Store row col pickup =>
      ∀ cell, cell_at (this wc.1) row col = Some cell →
              Item.type_ cell = NONE → Item.type_ pickup ≠ NONE
  | _ => True
  end.

(** An addition, or a subtraction, that does not round. *)
Definition exact_add (a b : W) : Prop :=
  ∃ x y, w_val a = Some x ∧ w_val b = Some y
         ∧ w_val (w_add a b) = Some (x + y)%Z.

Definition exact_sub (a b : W) : Prop :=
  ∃ x y, w_val a = Some x ∧ w_val b = Some y
         ∧ w_val (w_sub a b) = Some (x - y)%Z.

(** A call whose update of the weight, if it makes one, does not round. *)
Definition exact_call (wc : world * call) : Prop :=
  match wc.2 with
  | Store row col pickup =>
      ∀ cell, cell_at (this wc.1) row col = Some cell →
              Item.type_ cell = NONE →
              exact_add (weight_ (this wc.1)) (Item.weight_ pickup)
  | Remove row col =>
      ∀ cell, cell_at (this wc.1) row col = Some cell →
              Item.type_ cell ≠ NONE →
              exact_sub (weight_ (this wc.1)) (Item.weight_ cell)
  | _ => True
  end.

(** The additions of [ws] to [a], one after the other, none rounding. *)
Fixpoint exact_sum (a : W) (ws : list W) : Prop :=
  match ws with
  | [] => True
  | x :: ws => exact_add a x ∧ exact_sum (w_add a x) ws
  end.

(** *** What the aggregates are meant to be *)

(** The cells that hold an item, in row-major order. *)
Definition occupied (g : list (list (Item W))) : list (Item W) :=
  filter (λ it, Item.type_ it ≠ NONE) (concat g).

(** The sum of their weights, added up in that order from zero. *)
Definition grid_weight (g : list (list (Item W))) : W :=
  foldl w_add w_zero (Item.weight_ <$> occupied g).

Definition grid_count (g : list (list (Item W))) : Z :=
  Z.of_nat (length (occupied g)).

(** The number of cells; below [2 ^ 64] for any grid held in memory. *)
Definition grid_cells (g : list (list (Item W))) : Z :=
  Z.of_nat (length (concat g)).

(** The exact sum of the weights of the items of the grid. *)
Definition grid_value (g : list (list (Item W))) : option Z :=
  sum_values (Item.weight_ <$> occupied g).

(** The two halves of the invariant of the data model: the count is the
    number of items in the grid (whose size is carried along), and the
    weight has the value of the exact sum of their weights. *)
Definition counts_items (cells : Z) (s : t) : Prop :=
  grid_cells (inventory_grid_ s) = cells
  ∧ item_count_ s = grid_count (inventory_grid_ s).

Definition weighs_items (s : t) : Prop :=
  ∃ v, w_val (weight_ s) = Some v ∧ grid_value (inventory_grid_ s) = Some v.

(** The constructor's scan of [items] starts from a zero of value 0 and
    none of its additions rounds. *)
Definition exact_scan (items : list (list (Item W))) : Prop :=
  w_val w_zero = Some 0%Z
  ∧ exact_sum w_zero (Item.weight_ <$> occupied items).
End Inventory.

#[global] Arguments t W : clear implicits.
#[global] Arguments world W : clear implicits.
#[global] Arguments M W A : clear implicits.
#[global] Arguments call W : clear implicits.
End Inventory.

Import Inventory.

(** ** The caller's objects

    [getItems] returns a vector by value.  To tell a copy from a reference,
    the caller's side is modelled as well: the vector objects the caller
    owns live at addresses of their own, and an expression of vector type
    denotes either one of them or the inventory's own member. *)

Section Caller.
Context {W : Type} `{Weight W}.

Record caller : Type := Caller {
  inventory : world W;
  vectors : gmap N (list (list (Item W)))
}.

(** What a vector expression denotes: [this->inventory_grid_] or the
    caller's object at an address. *)
Inductive grid_ref : Type :=
  | member_grid
  | caller_grid (a : N).

Definition deref (ref : grid_ref) (c : caller) :
    option (list (list (Item W))) :=
  match ref with
  | member_grid => Some (inventory_grid_ (this (inventory c)))
  | caller_grid a => vectors c !! a
  end.

Definition assign (ref : grid_ref) (g : list (list (Item W))) (c : caller) :
    caller :=
  match ref with
  | member_grid =>
      Caller (World (set_inventory_grid g (this (inventory c)))
                    (heap (inventory c)))
             (vectors c)
  | caller_grid a => Caller (inventory c) (<[a := g]> (vectors c))
  end.

(** One mutation of the vector that [ref] denotes (an element assigned, a
    row cleared, ...): any function of its value, written back in place.
    Undefined on an address that holds no object. *)
Definition mutate (ref : grid_ref)
    (f : list (list (Item W)) → list (list (Item W))) (c : caller) :
    outcome (unit * caller) :=
  match deref ref c with
  | Some g => Returned ((), assign ref (f g) c)
  | None => Undefined
  end.

Fixpoint mutate_all (ref : grid_ref)
    (fs : list (list (list (Item W)) → list (list (Item W)))) (c : caller) :
    outcome (unit * caller) :=
  match fs with
  | [] => Returned ((), c)
  | f :: fs =>
      match mutate ref f c with
      | Returned (_, c') => mutate_all ref fs c'
      | Thrown e => Thrown e
      | Undefined => Undefined
      end
  end.

(** A method called on the caller's inventory. *)
Definition on_inventory {A : Type} (m : M W A) (c : caller) :
    outcome (A * caller) :=
  match m (inventory c) with
  | Returned (x, w') => Returned (x, Caller w' (vectors c))
  | Thrown e => Thrown e
  | Undefined => Undefined
  end.

(** [std::vector<std::vector<Item>> copy = inv.getItems();]: the return
    type of [getItems] is a vector, not a reference to one, so [return
    inventory_grid_;] hands out the member's value; it initialises the
    caller's object at [a], and [copy] denotes that object. *)
Definition getItems_into (a : N) (c : caller) : outcome (grid_ref * caller) :=
  match on_inventory getItems c with
  | Returned (g, c') => Returned (caller_grid a, assign (caller_grid a) g c')
  | Thrown e => Thrown e
  | Undefined => Undefined
  end.
End Caller.

#[global] Arguments caller W : clear implicits.

(** ** Sample inputs *)

Module Samples.
(** Items with [float] weights, as in the program. *)
Definition empty_slot : Item float := Item.default.
Definition sword : Item float := Item.mk (OTHER 1) (float_of_Z 5).
Definition shield : Item float := Item.mk (OTHER 2) (float_of_Z 9).
Definition pebble : Item float := Item.mk (OTHER 3) (float_of_Z 3).
Definition anvil : Item float := Item.mk (OTHER 4) (float_of_Z 100000000).

(** The 2x2 grid of empty slots of the spec's scenario. *)
Definition empty_2x2 : list (list (Item float)) :=
  [[empty_slot; empty_slot]; [empty_slot; empty_slot]].

Definition bag_2x2 : world float := World (ctor empty_2x2 nullptr) ∅.

(** A row with one free slot before two pebbles. *)
Definition pebbles : world float :=
  World (ctor [[empty_slot; pebble; pebble]] nullptr) ∅.

Definition swords : world float :=
  World (ctor [[sword; sword]] nullptr) ∅.

(** Rows of different lengths, with the shield equipped from the heap. *)
Definition jagged : world float :=
  World (ctor [[sword]; [empty_slot; pebble; anvil]; []] 8%N)
        {[ 8%N := shield ]}.

(** The 2x2 grid after the sword is stored at (0,0), and after the shield
    is stored at (0,1) as well. *)
Definition bag_sword : world float :=
  World (mk [[sword; empty_slot]; [empty_slot; empty_slot]]
            nullptr (float_of_Z 5) 1%Z) ∅.

Definition bag_sword_shield : world float :=
  World (mk [[sword; shield]; [empty_slot; empty_slot]]
            nullptr (float_of_Z 14) 2%Z) ∅.

(** And after the sword is removed again. *)
Definition bag_shield : world float :=
  World (mk [[empty_slot; shield]; [empty_slot; empty_slot]]
            nullptr (float_of_Z 9) 1%Z) ∅.

(** The calls that lead there, the latest first. *)
Definition filling : list (world float * call float) :=
  [(bag_sword_shield, Remove 0 0);
   (bag_sword, Store 0 1 shield);
   (bag_2x2, Store 0 0 sword)].

(** The row of pebbles after the anvil is stored in front of them. *)
Definition pebbles_anvil : world float :=
  World (mk [[anvil; pebble; pebble]] nullptr (float_of_Z 100000008) 3%Z) ∅.
End Samples.

(** * Properties *)

(** Unfolds the sequencing of a method body down to its outcome. *)
Ltac run :=
  unfold mbind, M_bind, mret, M_ret, mthrow, M_throw, get_this, put_this,
    index, delete_; simpl.

Section InventoryFacts.
Context {W : Type} `{Weight W} `{WeightValue W}.
Implicit Types (w : world W) (g : list (list (Item W))) (r : list (Item W)).
Implicit Types (it pickup : Item W) (row col : nat).

(** ** The bounds test *)

Lemma out_of_bounds_row w row col :
  length (inventory_grid_ (this w)) ≤ row →
  out_of_bounds row col w = Returned (true, w).
Proof.
  intros Hrow. unfold out_of_bounds. run.
  by rewrite bool_decide_eq_true_2.
Qed.

Lemma out_of_bounds_col w row col r :
  inventory_grid_ (this w) !! row = Some r →
  out_of_bounds row col w = Returned (bool_decide (length r ≤ col), w).
Proof.
  intros Hr. unfold out_of_bounds. run.
  apply lookup_lt_Some in Hr as Hlt.
  rewrite bool_decide_eq_false_2 by lia.
  by rewrite Hr.
Qed.

Lemma at_in_bounds w row col r it :
  inventory_grid_ (this w) !! row = Some r → r !! col = Some it →
  at_ row col w = Returned (it, w).
Proof.
  intros Hr Hit. unfold at_.
  unfold mbind at 1, M_bind. rewrite (out_of_bounds_col _ _ _ _ Hr).
  apply lookup_lt_Some in Hit as Hlt.
  rewrite bool_decide_eq_false_2 by lia.
  run. by rewrite Hr, Hit.
Qed.

Lemma at_row_out w row col :
  length (inventory_grid_ (this w)) ≤ row →
  at_ row col w = Thrown (out_of_range "Index out of bounds").
Proof.
  intros Hrow. unfold at_.
  unfold mbind at 1, M_bind. by rewrite out_of_bounds_row.
Qed.

Lemma at_col_out w row col r :
  inventory_grid_ (this w) !! row = Some r → length r ≤ col →
  at_ row col w = Thrown (out_of_range "Index out of bounds").
Proof.
  intros Hr Hcol. unfold at_.
  unfold mbind at 1, M_bind. rewrite (out_of_bounds_col _ _ _ _ Hr).
  by rewrite bool_decide_eq_true_2.
Qed.

(** The three cases cover every index. *)
Lemma index_cases g row col :
  (∃ r it, g !! row = Some r ∧ r !! col = Some it)
  ∨ length g ≤ row
  ∨ (∃ r, g !! row = Some r ∧ length r ≤ col).
Proof.
  destruct (g !! row) as [r|] eqn:Hr.
  - destruct (r !! col) as [it|] eqn:Hit.
    + left. eauto.
    + right. right. exists r. split; [done|]. by apply lookup_ge_None.
  - right. left. by apply lookup_ge_None.
Qed.

(** C2. [at(row, col)] on an index inside the grid's shape (row below the
    number of rows, column below the length of that row, rows of any
    lengths) returns the item stored in the cell and leaves the object and
    the heap as they were; on an index with the row at or beyond the number
    of rows, or the column at or beyond the length of that row, it throws
    [out_of_range]; and it throws if and only if the index is out of
    bounds. *)
Theorem at_bounds_checked w row col :
  (row < length (inventory_grid_ (this w)) →
   ∃ r,
     inventory_grid_ (this w) !! row = Some r
     ∧ (col < length r →
        ∃ it, r !! col = Some it ∧ at_ row col w = Returned (it, w))
     ∧ (length r ≤ col →
        at_ row col w = Thrown (out_of_range "Index out of bounds")))
  ∧ (length (inventory_grid_ (this w)) ≤ row →
     at_ row col w = Thrown (out_of_range "Index out of bounds"))
  ∧ ((∃ e, at_ row col w = Thrown e) ↔
     (length (inventory_grid_ (this w)) ≤ row
      ∨ ∃ r, inventory_grid_ (this w) !! row = Some r ∧ length r ≤ col)).
Proof.
  split_and!.
  - intros Hrow.
    destruct (lookup_lt_is_Some_2 _ _ Hrow) as [r Hr].
    exists r. split_and!; [done| |by apply at_col_out].
    intros Hcol. destruct (lookup_lt_is_Some_2 _ _ Hcol) as [it Hit].
    exists it. split; [done|]. by apply (at_in_bounds _ _ _ r).
  - apply at_row_out.
  - split.
    + intros [e He].
      destruct (index_cases (inventory_grid_ (this w)) row col)
        as [(r & it & Hr & Hit)|[?|?]]; [|by left|by right].
      by rewrite (at_in_bounds _ _ _ _ _ Hr Hit) in He.
    + intros [Hrow|(r & Hr & Hcol)]; eexists.
      * by apply at_row_out.
      * by eapply at_col_out.
Qed.

(** C9. The row is compared with the number of rows before the grid is
    indexed, so [at] never indexes a vector out of range, whatever the
    row and the column: it either returns or throws the one
    [out_of_range] exception, and never runs into undefined behaviour. *)
Theorem at_never_undefined w row col :
  out_of_bounds row col w ≠ Undefined
  ∧ at_ row col w ≠ Undefined
  ∧ (∀ e, at_ row col w = Thrown e →
          e = out_of_range "Index out of bounds").
Proof.
  destruct (index_cases (inventory_grid_ (this w)) row col)
    as [(r & it & Hr & Hit)|[Hrow|(r & Hr & Hcol)]].
  - rewrite (out_of_bounds_col _ _ _ _ Hr), (at_in_bounds _ _ _ _ _ Hr Hit).
    split_and!; [done|done|]. by intros e.
  - rewrite out_of_bounds_row, at_row_out by done.
    split_and!; [done|done|]. by intros e [= <-].
  - rewrite (out_of_bounds_col _ _ _ _ Hr), (at_col_out _ _ _ _ Hr Hcol).
    split_and!; [done|done|]. by intros e [= <-].
Qed.

(** Unchecked indexing does go wrong out of range: the bounds test is what
    keeps [at] away from it. *)
Lemma index_out_of_range {A} (v : list A) (i : nat) w :
  length v ≤ i → index v i w = Undefined.
Proof. intros Hi. unfold index. by rewrite (lookup_ge_None_2 v i). Qed.

(** ** Construction with no arguments *)

(** C5. [Inventory()] holds a grid of exactly 10 rows of 10 NONE-type
    items each, weight zero, count zero and no equipped item. *)
Theorem ctor_default_empty :
  length (inventory_grid_ ctor_default) = 10
  ∧ Forall (λ r, length r = 10 ∧ Forall (λ it, Item.type_ it = NONE) r)
           (inventory_grid_ ctor_default)
  ∧ weight_ ctor_default = w_zero
  ∧ item_count_ ctor_default = 0%Z
  ∧ equipped_ ctor_default = nullptr.
Proof.
  split_and!; try reflexivity.
  simpl. repeat (apply Forall_cons; split; [split; [reflexivity|]|]);
    repeat constructor.
Qed.

(** ** The equipped slot *)

Lemma equip_run w x :
  equip x w = Returned ((), World (set_equipped x (this w)) (heap w)).
Proof. reflexivity. Qed.

Lemma getEquipped_run w :
  getEquipped w = Returned (equipped_ (this w), w).
Proof. reflexivity. Qed.

Lemma getWeight_run w : getWeight w = Returned (weight_ (this w), w).
Proof. reflexivity. Qed.

Lemma getCount_run w : getCount w = Returned (item_count_ (this w), w).
Proof. reflexivity. Qed.

Lemma getItems_run w :
  getItems w = Returned (inventory_grid_ (this w), w).
Proof. reflexivity. Qed.

Lemma discardEquipped_null w :
  equipped_ (this w) = nullptr → discardEquipped w = Returned ((), w).
Proof.
  intros Hnull. unfold discardEquipped. run.
  rewrite decide_False by (by intros []). by destruct w.
Qed.

Lemma discardEquipped_owned w it :
  equipped_ (this w) ≠ nullptr → heap w !! equipped_ (this w) = Some it →
  discardEquipped w =
    Returned ((), World (set_equipped nullptr (this w))
                        (delete (equipped_ (this w)) (heap w))).
Proof.
  intros Hp Hlive. unfold discardEquipped. run.
  rewrite decide_True by done. by rewrite Hlive.
Qed.

Lemma discardEquipped_dangling w :
  equipped_ (this w) ≠ nullptr → heap w !! equipped_ (this w) = None →
  discardEquipped w = Undefined.
Proof.
  intros Hp Hdead. unfold discardEquipped. run.
  rewrite decide_True by done. by rewrite Hdead.
Qed.

(** Whenever [discardEquipped] returns, only the equipped slot and the
    heap may have changed. *)
Lemma discardEquipped_frame w w' :
  discardEquipped w = Returned ((), w') →
  inventory_grid_ (this w') = inventory_grid_ (this w)
  ∧ weight_ (this w') = weight_ (this w)
  ∧ item_count_ (this w') = item_count_ (this w)
  ∧ equipped_ (this w') = nullptr.
Proof.
  destruct (decide (equipped_ (this w) = nullptr)) as [Hnull|Hp].
  - rewrite discardEquipped_null by done. by intros [= <-].
  - destruct (heap w !! equipped_ (this w)) as [it|] eqn:Hlive.
    + rewrite (discardEquipped_owned _ it) by done. by intros [= <-].
    + by rewrite discardEquipped_dangling.
Qed.

(** C6. [equip(x)] puts [x] in the equipped slot and changes nothing
    else: the grid, the weight and the count are the same, [getWeight()]
    and [getCount()] answer as before the call, and the heap is untouched,
    so the item equipped before is neither released nor acted upon. *)
Theorem equip_only_sets_slot w x :
  ∃ w',
    equip x w = Returned ((), w')
    ∧ equipped_ (this w') = x
    ∧ inventory_grid_ (this w') = inventory_grid_ (this w)
    ∧ weight_ (this w') = weight_ (this w)
    ∧ item_count_ (this w') = item_count_ (this w)
    ∧ heap w' = heap w
    ∧ value (getWeight w') = value (getWeight w)
    ∧ value (getCount w') = value (getCount w).
Proof. eexists. split; [apply equip_run|]. by split_and!. Qed.

(** C7. [discardEquipped()] with an item in the slot that the inventory
    owns (a live heap object) releases it and empties the slot, so that
    [getEquipped()] then returns [nullptr]; with an empty slot it does
    nothing; and whenever it returns, the grid, the weight and the count
    are as before. *)
Theorem discardEquipped_releases w :
  (equipped_ (this w) = nullptr → discardEquipped w = Returned ((), w))
  ∧ (∀ it,
       equipped_ (this w) ≠ nullptr →
       heap w !! equipped_ (this w) = Some it →
       ∃ w',
         discardEquipped w = Returned ((), w')
         ∧ heap w' = delete (equipped_ (this w)) (heap w)
         ∧ heap w' !! equipped_ (this w) = None
         ∧ equipped_ (this w') = nullptr
         ∧ value (getEquipped w') = Returned nullptr)
  ∧ (∀ w',
       discardEquipped w = Returned ((), w') →
       inventory_grid_ (this w') = inventory_grid_ (this w)
       ∧ weight_ (this w') = weight_ (this w)
       ∧ item_count_ (this w') = item_count_ (this w)).
Proof.
  split_and!.
  - apply discardEquipped_null.
  - intros it Hp Hlive. eexists.
    split; [by apply (discardEquipped_owned _ it)|].
    simpl. split_and!; try done. apply lookup_delete_eq.
  - intros w' Hrun. by destruct (discardEquipped_frame _ _ Hrun) as (?&?&?&?).
Qed.

(** C10. [equip(x)] followed by [getEquipped()] returns exactly [x], also
    for [x = nullptr]; [getEquipped()] returns the slot and leaves the
    object and the heap as they were; and [equip(nullptr)] empties the
    slot while the heap, and with it the item equipped before, stays as it
    was. *)
Theorem equip_getEquipped w x :
  value ((equip x;; getEquipped) w) = Returned x
  ∧ getEquipped w = Returned (equipped_ (this w), w)
  ∧ (∃ w',
       equip nullptr w = Returned ((), w')
       ∧ equipped_ (this w') = nullptr
       ∧ heap w' = heap w
       ∧ heap w' !! equipped_ (this w) = heap w !! equipped_ (this w)).
Proof.
  split_and!; [reflexivity|reflexivity|].
  eexists. split; [apply equip_run|]. by split_and!.
Qed.

(** Mutations through the caller's own object leave the inventory as it
    is, and the object stays where it is. *)
Lemma mutate_all_caller_grid (c : caller W) (a : N)
    (fs : list (list (list (Item W)) → list (list (Item W)))) g :
  vectors c !! a = Some g →
  ∃ c', mutate_all (caller_grid a) fs c = Returned ((), c')
        ∧ inventory c' = inventory c.
Proof.
  revert c g. induction fs as [|f fs IH]; intros c g Hg; simpl.
  - by exists c.
  - unfold mutate. simpl. rewrite Hg.
    destruct (IH (Caller (inventory c) (<[a := f g]> (vectors c))) (f g))
      as (c' & Hrun & Hinv); [apply lookup_insert_eq|].
    by exists c'.
Qed.

(** A mutation through a reference to the member is a mutation of the
    inventory's grid: this is what a getter returning a reference would
    hand out. *)
Lemma mutate_member_grid (c : caller W)
    (f : list (list (Item W)) → list (list (Item W))) :
  ∃ c', mutate member_grid f c = Returned ((), c')
        ∧ inventory_grid_ (this (inventory c'))
          = f (inventory_grid_ (this (inventory c))).
Proof. by eexists. Qed.

(** C8. [getItems()] returns a copy of the grid, not a reference to the
    member: the object the caller receives holds the grid's value, is one
    of the caller's own, and the inventory is as it was; after any
    sequence of mutations of that object, [at], [getWeight] and [getCount]
    on the inventory answer as before the call. *)
Theorem getItems_returns_copy (c : caller W) (a : N)
    (fs : list (list (list (Item W)) → list (list (Item W)))) :
  ∃ c1 c2,
    getItems_into a c = Returned (caller_grid a, c1)
    ∧ deref (caller_grid a) c1 = Some (inventory_grid_ (this (inventory c)))
    ∧ inventory c1 = inventory c
    ∧ mutate_all (caller_grid a) fs c1 = Returned ((), c2)
    ∧ ∀ row col,
        value (on_inventory (at_ row col) c2)
        = value (on_inventory (at_ row col) c)
        ∧ value (on_inventory getWeight c2) = value (on_inventory getWeight c)
        ∧ value (on_inventory getCount c2) = value (on_inventory getCount c).
Proof.
  set (g := inventory_grid_ (this (inventory c))).
  set (c1 := Caller (inventory c) (<[a := g]> (vectors c))).
  destruct (mutate_all_caller_grid c1 a fs g) as (c2 & Hrun & Hinv);
    [apply lookup_insert_eq|].
  exists c1, c2. split_and!; [done|apply lookup_insert_eq|done|done|].
  intros row col. unfold on_inventory. rewrite Hinv. simpl.
  split_and!; by destruct (at_ row col (inventory c)) as [[]| |].
Qed.

(** ** Storing and removing *)

(** The grid after [inventory_grid_[row][col] = x]. *)
Lemma assigned_cell g row col r x it :
  g !! row = Some r → r !! col = Some it →
  (<[row := <[col := x]> r]> g) !! row = Some (<[col := x]> r)
  ∧ (<[col := x]> r) !! col = Some x.
Proof.
  intros Hr Hit. split.
  - apply list_lookup_insert_eq. by eapply lookup_lt_Some.
  - apply list_lookup_insert_eq. by eapply lookup_lt_Some.
Qed.

Lemma store_empty_run w row col r cell pickup :
  inventory_grid_ (this w) !! row = Some r → r !! col = Some cell →
  Item.type_ cell = NONE →
  store row col pickup w =
    Returned (true,
              World (mk (<[row := <[col := pickup]> r]>
                           (inventory_grid_ (this w)))
                        (equipped_ (this w))
                        (w_add (weight_ (this w)) (Item.weight_ pickup))
                        (size_t_incr (item_count_ (this w))))
                    (heap w)).
Proof.
  intros Hr Hcell Hnone. unfold store.
  unfold mbind at 1, M_bind. rewrite (out_of_bounds_col _ _ _ _ Hr).
  apply lookup_lt_Some in Hcell as Hlt.
  rewrite bool_decide_eq_false_2 by lia.
  run. rewrite Hr, Hcell. simpl.
  by rewrite decide_False by (by intros []).
Qed.

Lemma store_occupied_run w row col r cell pickup :
  inventory_grid_ (this w) !! row = Some r → r !! col = Some cell →
  Item.type_ cell ≠ NONE →
  store row col pickup w = Returned (false, w).
Proof.
  intros Hr Hcell Hocc. unfold store.
  unfold mbind at 1, M_bind. rewrite (out_of_bounds_col _ _ _ _ Hr).
  apply lookup_lt_Some in Hcell as Hlt.
  rewrite bool_decide_eq_false_2 by lia.
  run. rewrite Hr, Hcell. simpl.
  by rewrite decide_True by done.
Qed.

Lemma store_out_run w row col pickup :
  (length (inventory_grid_ (this w)) ≤ row
   ∨ ∃ r, inventory_grid_ (this w) !! row = Some r ∧ length r ≤ col) →
  store row col pickup w = Thrown (out_of_range "Index out of bounds").
Proof.
  intros [Hrow|(r & Hr & Hcol)]; unfold store; unfold mbind at 1, M_bind.
  - by rewrite out_of_bounds_row.
  - rewrite (out_of_bounds_col _ _ _ _ Hr).
    by rewrite bool_decide_eq_true_2.
Qed.

Lemma remove_occupied_run w row col r cell :
  inventory_grid_ (this w) !! row = Some r → r !! col = Some cell →
  Item.type_ cell ≠ NONE →
  remove row col w =
    Returned (true,
              World (mk (<[row := <[col := Item.default]> r]>
                           (inventory_grid_ (this w)))
                        (equipped_ (this w))
                        (w_sub (weight_ (this w)) (Item.weight_ cell))
                        (size_t_decr (item_count_ (this w))))
                    (heap w)).
Proof.
  intros Hr Hcell Hocc. unfold remove.
  unfold mbind at 1, M_bind. rewrite (out_of_bounds_col _ _ _ _ Hr).
  apply lookup_lt_Some in Hcell as Hlt.
  rewrite bool_decide_eq_false_2 by lia.
  run. rewrite Hr, Hcell. simpl.
  by rewrite decide_True by done.
Qed.

Lemma remove_empty_run w row col r cell :
  inventory_grid_ (this w) !! row = Some r → r !! col = Some cell →
  Item.type_ cell = NONE →
  remove row col w = Returned (false, w).
Proof.
  intros Hr Hcell Hnone. unfold remove.
  unfold mbind at 1, M_bind. rewrite (out_of_bounds_col _ _ _ _ Hr).
  apply lookup_lt_Some in Hcell as Hlt.
  rewrite bool_decide_eq_false_2 by lia.
  run. rewrite Hr, Hcell. simpl.
  by rewrite decide_False by (by intros []).
Qed.

Lemma remove_out_run w row col :
  (length (inventory_grid_ (this w)) ≤ row
   ∨ ∃ r, inventory_grid_ (this w) !! row = Some r ∧ length r ≤ col) →
  remove row col w = Thrown (out_of_range "Index out of bounds").
Proof.
  intros [Hrow|(r & Hr & Hcol)]; unfold remove; unfold mbind at 1, M_bind.
  - by rewrite out_of_bounds_row.
  - rewrite (out_of_bounds_col _ _ _ _ Hr).
    by rewrite bool_decide_eq_true_2.
Qed.

Lemma size_t_incr_no_wrap (c : Z) :
  (0 ≤ c)%Z → (c + 1 < size_t_modulus)%Z → size_t_incr c = (c + 1)%Z.
Proof.
  intros Hc Hlt. unfold size_t_incr, size_t_wrap.
  apply Z.mod_small. lia.
Qed.

Lemma size_t_decr_no_wrap (c : Z) :
  (0 < c)%Z → (c < size_t_modulus)%Z → size_t_decr c = (c - 1)%Z.
Proof.
  intros Hc Hlt. unfold size_t_decr, size_t_wrap.
  apply Z.mod_small. lia.
Qed.

(** C3. [store(row, col, item)] on a cell inside the grid that holds a
    NONE-type item returns [true], writes the item into that cell,
    increments the count ([item_count_++], which is one more for every
    count below the largest [size_t]) and makes the weight the old weight
    plus the item's weight; [at(row, col)] then returns the item. *)
Theorem store_on_empty w row col r cell pickup :
  inventory_grid_ (this w) !! row = Some r → r !! col = Some cell →
  Item.type_ cell = NONE →
  ∃ w',
    store row col pickup w = Returned (true, w')
    ∧ inventory_grid_ (this w')
      = <[row := <[col := pickup]> r]> (inventory_grid_ (this w))
    ∧ item_count_ (this w') = size_t_incr (item_count_ (this w))
    ∧ ((0 ≤ item_count_ (this w) < size_t_modulus - 1)%Z →
       item_count_ (this w') = (item_count_ (this w) + 1)%Z)
    ∧ weight_ (this w') = w_add (weight_ (this w)) (Item.weight_ pickup)
    ∧ at_ row col w' = Returned (pickup, w').
Proof.
  intros Hr Hcell Hnone. eexists.
  split; [by apply (store_empty_run _ _ _ r cell)|]. simpl.
  split_and!; [done|done| |done|].
  - intros Hc. apply size_t_incr_no_wrap; lia.
  - destruct (assigned_cell _ _ _ _ pickup _ Hr Hcell) as [Hr' Hcell'].
    by apply (at_in_bounds _ _ _ (<[col := pickup]> r)).
Qed.

(** C4. [store(row, col, item)] on a cell inside the grid that holds an
    item returns [false] (it does not throw) and leaves the whole state,
    the weight, the count and every cell, as it was. *)
Theorem store_on_occupied w row col r cell pickup :
  inventory_grid_ (this w) !! row = Some r → r !! col = Some cell →
  Item.type_ cell ≠ NONE →
  store row col pickup w = Returned (false, w).
Proof. apply store_occupied_run. Qed.

(** ** The scan of the constructor *)

Local Abbreviation items_of := (filter (λ it : Item W, Item.type_ it ≠ NONE)).

Lemma scan_row_spec (acc : W * Z) r :
  scan_row acc r
  = (foldl w_add acc.1 (Item.weight_ <$> items_of r),
     Nat.iter (length (items_of r)) size_t_incr acc.2).
Proof.
  unfold scan_row. revert acc.
  induction r as [|it r IH]; intros [a c]; [done|].
  simpl foldl at 1. rewrite IH. unfold scan_cell.
  destruct (decide (Item.type_ it ≠ NONE)) as [Hit|Hit].
  - rewrite filter_cons_True by done. simpl length.
    by rewrite Nat.iter_succ_r.
  - by rewrite filter_cons_False by done.
Qed.

Lemma scan_rows_spec (acc : W * Z) g :
  foldl scan_row acc g
  = (foldl w_add acc.1 (Item.weight_ <$> occupied g),
     Nat.iter (length (occupied g)) size_t_incr acc.2).
Proof.
  unfold occupied. revert acc.
  induction g as [|r g IH]; intros [a c]; [done|].
  simpl foldl at 1. rewrite IH, scan_row_spec. simpl concat.
  rewrite filter_app, fmap_app, foldl_app, length_app. simpl.
  by rewrite (Nat.add_comm (length _)), Nat.iter_add.
Qed.

Lemma iter_size_t_incr (n : nat) (c : Z) :
  (0 ≤ c)%Z → (c + Z.of_nat n < size_t_modulus)%Z →
  Nat.iter n size_t_incr c = (c + Z.of_nat n)%Z.
Proof.
  intros Hc. induction n as [|n IH]; intros Hlt; simpl.
  - lia.
  - rewrite IH by lia. rewrite size_t_incr_no_wrap by lia. lia.
Qed.

Lemma grid_count_le_cells g : (0 ≤ grid_count g ≤ grid_cells g)%Z.
Proof.
  unfold grid_count, grid_cells, occupied.
  pose proof (length_filter (λ it : Item W, Item.type_ it ≠ NONE) (concat g)).
  lia.
Qed.

(** The weight is the sum of the items' weights in scan order, whatever
    the arithmetic. *)
Lemma ctor_weight items equipped :
  weight_ (ctor items equipped) = grid_weight items.
Proof. unfold ctor, scan. simpl. by rewrite scan_rows_spec. Qed.

Lemma ctor_count items equipped :
  (grid_cells items < size_t_modulus)%Z →
  item_count_ (ctor items equipped) = grid_count items.
Proof.
  intros Hfit. unfold ctor, scan. simpl. rewrite scan_rows_spec. simpl.
  pose proof (grid_count_le_cells items) as Hle. unfold grid_count in *.
  rewrite iter_size_t_incr by lia. lia.
Qed.

(** ** One cell replaced *)

(** Assigning to a cell replaces one element of the row-major sequence of
    cells and leaves the others where they are. *)
Lemma concat_assigned g row col r it :
  g !! row = Some r → r !! col = Some it →
  ∃ pre post,
    concat g = pre ++ it :: post
    ∧ ∀ x, concat (<[row := <[col := x]> r]> g) = pre ++ x :: post.
Proof.
  intros Hr Hit.
  exists (concat (take row g) ++ take col r),
         (drop (S col) r ++ concat (drop (S row) g)).
  split.
  - rewrite <- (take_drop_middle g row r Hr) at 1.
    rewrite concat_app. simpl.
    rewrite <- (take_drop_middle r col it Hit) at 1.
    by rewrite <- !app_assoc.
  - intros x.
    rewrite (insert_take_drop g) by (by eapply lookup_lt_Some).
    rewrite (insert_take_drop r) by (by eapply lookup_lt_Some).
    rewrite concat_app. simpl. by rewrite <- !app_assoc.
Qed.

Lemma add_values_comm (ox oy : option Z) :
  add_values ox oy = add_values oy ox.
Proof. destruct ox, oy; simpl; try done. f_equal. lia. Qed.

Lemma add_values_assoc (ox oy oz : option Z) :
  add_values ox (add_values oy oz) = add_values (add_values ox oy) oz.
Proof. destruct ox, oy, oz; simpl; try done. f_equal. lia. Qed.

Lemma sum_values_app (ws1 ws2 : list W) :
  sum_values (ws1 ++ ws2) = add_values (sum_values ws1) (sum_values ws2).
Proof.
  induction ws1 as [|x ws1 IH]; simpl.
  - by destruct (sum_values ws2).
  - by rewrite IH, add_values_assoc.
Qed.

Lemma sum_values_insert (ws1 ws2 : list W) (x : W) :
  sum_values (ws1 ++ x :: ws2)
  = add_values (w_val x) (sum_values (ws1 ++ ws2)).
Proof.
  rewrite !sum_values_app. simpl.
  rewrite !add_values_assoc. f_equal. apply add_values_comm.
Qed.

(** Additions that do not round add up to the exact sum. *)
Lemma exact_sum_value (ws : list W) (a : W) (va : Z) :
  w_val a = Some va → exact_sum a ws →
  ∃ v, sum_values ws = Some v ∧ w_val (foldl w_add a ws) = Some (va + v)%Z.
Proof.
  revert a va. induction ws as [|x ws IH]; intros a va Ha Hexact; simpl.
  - exists 0%Z. split; [done|]. rewrite Ha. f_equal. lia.
  - destruct Hexact as [(xa & xv & Hxa & Hxv & Hsum) Hrest].
    rewrite Ha in Hxa. injection Hxa as <-.
    destruct (IH _ _ Hsum Hrest) as (v & Hv & Hfold).
    exists (xv + v)%Z. rewrite Hv, Hxv, Hfold. simpl.
    split; [done|]. f_equal. lia.
Qed.

Lemma grid_weight_value g :
  exact_scan g →
  ∃ v, w_val (grid_weight g) = Some v ∧ grid_value g = Some v.
Proof.
  intros [Hzero Hexact].
  destruct (exact_sum_value _ _ _ Hzero Hexact) as (v & Hv & Hfold).
  exists v. by split.
Qed.

Lemma weighs_items_ctor items equipped :
  exact_scan items → weighs_items (ctor items equipped).
Proof.
  intros Hexact. unfold weighs_items. rewrite ctor_weight.
  by apply grid_weight_value.
Qed.

Lemma counts_items_ctor items equipped :
  (grid_cells items < size_t_modulus)%Z →
  counts_items (grid_cells items) (ctor items equipped).
Proof. intros Hfit. split; [done|]. by apply ctor_count. Qed.

(** Two grids that differ in one cell, empty in the first and holding
    [x] in the second. *)
Lemma grid_filled g g' pre post e x :
  concat g = pre ++ e :: post → concat g' = pre ++ x :: post →
  Item.type_ e = NONE → Item.type_ x ≠ NONE →
  grid_cells g' = grid_cells g
  ∧ grid_count g' = (grid_count g + 1)%Z
  ∧ grid_value g' = add_values (w_val (Item.weight_ x)) (grid_value g).
Proof.
  intros Hg Hg' He Hx.
  unfold grid_cells, grid_count, grid_value, occupied.
  rewrite Hg, Hg', !filter_app.
  rewrite (filter_cons_False _ e) by (by intros []).
  rewrite (filter_cons_True _ x) by done.
  rewrite !length_app. simpl. split_and!; [done|lia|].
  rewrite !fmap_app, fmap_cons. apply sum_values_insert.
Qed.

(** ** The aggregates along the calls *)

Lemma seq_unit_run {A} (m : M W A) w w' :
  (m;; mret ()) w = Returned ((), w') → ∃ a, m w = Returned (a, w').
Proof.
  unfold mbind, M_bind, mret, M_ret.
  destruct (m w) as [[a w'']| |]; [|done|done].
  intros [= <-]. by exists a.
Qed.

Lemma cell_at_lookup (s : Inventory.t W) row col r cell :
  inventory_grid_ s !! row = Some r → r !! col = Some cell →
  cell_at s row col = Some cell.
Proof. intros Hr Hcell. unfold cell_at. by rewrite Hr. Qed.

Lemma store_count cells w w' row col pickup b :
  (cells < size_t_modulus)%Z →
  writes_item (w, Store row col pickup) →
  store row col pickup w = Returned (b, w') →
  counts_items cells (this w) → counts_items cells (this w').
Proof.
  intros Hfit Hwrites Hrun (Hcells & Hcount).
  unfold writes_item in Hwrites. simpl in Hwrites.
  destruct (index_cases (inventory_grid_ (this w)) row col)
    as [(r & cell & Hr & Hcell)|Hout].
  - destruct (decide (Item.type_ cell = NONE)) as [Hnone|Hocc].
    + rewrite (store_empty_run _ _ _ _ _ _ Hr Hcell Hnone) in Hrun.
      injection Hrun as <- <-. simpl.
      pose proof (Hwrites cell (cell_at_lookup _ _ _ _ _ Hr Hcell) Hnone)
        as Hpickup.
      destruct (concat_assigned _ _ _ _ _ Hr Hcell)
        as (pre & post & Hg & Hg').
      destruct (grid_filled _ _ _ _ _ _ Hg (Hg' pickup) Hnone Hpickup)
        as (Hcells' & Hcount' & _).
      pose proof (grid_count_le_cells (inventory_grid_ (this w))).
      pose proof (grid_count_le_cells
                    (<[row := <[col := pickup]> r]>
                       (inventory_grid_ (this w)))).
      split; simpl.
      * lia.
      * rewrite Hcount, size_t_incr_no_wrap by lia. lia.
    + rewrite (store_occupied_run _ _ _ _ _ _ Hr Hcell Hocc) in Hrun.
      by injection Hrun as <- <-.
  - by rewrite store_out_run in Hrun.
Qed.

Lemma store_value w w' row col pickup b :
  writes_item (w, Store row col pickup) →
  exact_call (w, Store row col pickup) →
  store row col pickup w = Returned (b, w') →
  weighs_items (this w) → weighs_items (this w').
Proof.
  intros Hwrites Hexact Hrun (v & Hv & Hsum).
  unfold writes_item, exact_call in Hwrites, Hexact. simpl in Hwrites, Hexact.
  destruct (index_cases (inventory_grid_ (this w)) row col)
    as [(r & cell & Hr & Hcell)|Hout].
  - destruct (decide (Item.type_ cell = NONE)) as [Hnone|Hocc].
    + rewrite (store_empty_run _ _ _ _ _ _ Hr Hcell Hnone) in Hrun.
      injection Hrun as <- <-. unfold weighs_items. simpl.
      pose proof (cell_at_lookup _ _ _ _ _ Hr Hcell) as Hat.
      pose proof (Hwrites cell Hat Hnone) as Hpickup.
      destruct (Hexact cell Hat Hnone) as (x & y & Hx & Hy & Hxy).
      rewrite Hv in Hx. injection Hx as <-.
      destruct (concat_assigned _ _ _ _ _ Hr Hcell)
        as (pre & post & Hg & Hg').
      destruct (grid_filled _ _ _ _ _ _ Hg (Hg' pickup) Hnone Hpickup)
        as (_ & _ & Hvalue).
      exists (v + y)%Z. split; [done|].
      rewrite Hvalue, Hy, Hsum. simpl. f_equal. lia.
    + rewrite (store_occupied_run _ _ _ _ _ _ Hr Hcell Hocc) in Hrun.
      injection Hrun as <- <-. by exists v.
  - by rewrite store_out_run in Hrun.
Qed.

Lemma remove_count cells w w' row col b :
  (cells < size_t_modulus)%Z →
  remove row col w = Returned (b, w') →
  counts_items cells (this w) → counts_items cells (this w').
Proof.
  intros Hfit Hrun (Hcells & Hcount).
  destruct (index_cases (inventory_grid_ (this w)) row col)
    as [(r & cell & Hr & Hcell)|Hout].
  - destruct (decide (Item.type_ cell = NONE)) as [Hnone|Hocc].
    + rewrite (remove_empty_run _ _ _ _ _ Hr Hcell Hnone) in Hrun.
      by injection Hrun as <- <-.
    + rewrite (remove_occupied_run _ _ _ _ _ Hr Hcell Hocc) in Hrun.
      injection Hrun as <- <-. simpl.
      destruct (concat_assigned _ _ _ _ _ Hr Hcell)
        as (pre & post & Hg & Hg').
      destruct (grid_filled _ _ _ _ _ _ (Hg' Item.default) Hg eq_refl Hocc)
        as (Hcells' & Hcount' & _).
      pose proof (grid_count_le_cells (inventory_grid_ (this w))).
      pose proof (grid_count_le_cells
                    (<[row := <[col := Item.default]> r]>
                       (inventory_grid_ (this w)))).
      split; simpl.
      * lia.
      * rewrite Hcount, size_t_decr_no_wrap by lia. lia.
  - by rewrite remove_out_run in Hrun.
Qed.

Lemma remove_value w w' row col b :
  exact_call (w, Remove row col) →
  remove row col w = Returned (b, w') →
  weighs_items (this w) → weighs_items (this w').
Proof.
  intros Hexact Hrun (v & Hv & Hsum).
  unfold exact_call in Hexact. simpl in Hexact.
  destruct (index_cases (inventory_grid_ (this w)) row col)
    as [(r & cell & Hr & Hcell)|Hout].
  - destruct (decide (Item.type_ cell = NONE)) as [Hnone|Hocc].
    + rewrite (remove_empty_run _ _ _ _ _ Hr Hcell Hnone) in Hrun.
      injection Hrun as <- <-. by exists v.
    + rewrite (remove_occupied_run _ _ _ _ _ Hr Hcell Hocc) in Hrun.
      injection Hrun as <- <-. unfold weighs_items. simpl.
      pose proof (cell_at_lookup _ _ _ _ _ Hr Hcell) as Hat.
      destruct (Hexact cell Hat Hocc) as (x & y & Hx & Hy & Hxy).
      rewrite Hv in Hx. injection Hx as <-.
      destruct (concat_assigned _ _ _ _ _ Hr Hcell)
        as (pre & post & Hg & Hg').
      destruct (grid_filled _ _ _ _ _ _ (Hg' Item.default) Hg eq_refl Hocc)
        as (_ & _ & Hvalue).
      rewrite Hvalue, Hy in Hsum.
      destruct (grid_value (<[row := <[col := Item.default]> r]>
                              (inventory_grid_ (this w))))
        as [v'|]; [|done].
      simpl in Hsum. injection Hsum as Hsum.
      exists v'. split; [|done]. rewrite Hxy. f_equal. lia.
  - by rewrite remove_out_run in Hrun.
Qed.

Lemma exec_count cells c w w' :
  (cells < size_t_modulus)%Z → writes_item (w, c) →
  exec c w = Returned ((), w') →
  counts_items cells (this w) → counts_items cells (this w').
Proof.
  intros Hfit Hc Hrun Hinv.
  destruct c as [p| |row col pickup|row col]; simpl in Hrun.
  - rewrite equip_run in Hrun. by injection Hrun as <-.
  - destruct (discardEquipped_frame _ _ Hrun) as (Hg & _ & Hn & _).
    unfold counts_items. by rewrite Hg, Hn.
  - destruct (seq_unit_run _ _ _ Hrun) as [b Hstore].
    by eapply store_count.
  - destruct (seq_unit_run _ _ _ Hrun) as [b Hremove].
    by eapply remove_count.
Qed.

Lemma exec_value c w w' :
  writes_item (w, c) → exact_call (w, c) →
  exec c w = Returned ((), w') →
  weighs_items (this w) → weighs_items (this w').
Proof.
  intros Hc Hexact Hrun Hinv.
  destruct c as [p| |row col pickup|row col]; simpl in Hrun.
  - rewrite equip_run in Hrun. by injection Hrun as <-.
  - destruct (discardEquipped_frame _ _ Hrun) as (Hg & Hw & _ & _).
    unfold weighs_items. by rewrite Hg, Hw.
  - destruct (seq_unit_run _ _ _ Hrun) as [b Hstore].
    by eapply store_value.
  - destruct (seq_unit_run _ _ _ Hrun) as [b Hremove].
    by eapply remove_value.
Qed.

Lemma history_count cells w0 tr w :
  (cells < size_t_modulus)%Z →
  history w0 tr w → Forall writes_item tr →
  counts_items cells (this w0) → counts_items cells (this w).
Proof.
  intros Hfit Hhist. induction Hhist as [|tr w c w' _ IH Hrun].
  - done.
  - intros [Hc Htr]%Forall_cons Hinv. eapply exec_count; eauto.
Qed.

Lemma history_value w0 tr w :
  history w0 tr w → Forall writes_item tr → Forall exact_call tr →
  weighs_items (this w0) → weighs_items (this w).
Proof.
  intros Hhist. induction Hhist as [|tr w c w' _ IH Hrun].
  - done.
  - intros [Hc Htr]%Forall_cons [Hx Hxtr]%Forall_cons Hinv.
    eapply exec_value; eauto.
Qed.

End InventoryFacts.

(** ** The program's arithmetic and the exact one *)

Import Samples.

(** Rounding: the value of 100000000 + 3 in [float] is not 100000003. *)
Lemma float_add_rounds :
  ¬ exact_add (float_of_Z 100000000) (float_of_Z 3).
Proof.
  intros (x & y & Hx & Hy & Hxy).
  injection Hx as <-. injection Hy as <-.
  vm_compute in Hxy. discriminate.
Qed.

(** The scenario of the spec: an empty 2x2 grid, a sword stored at (0,0), a
    second store at (0,0) refused, and [at(5,5)] out of bounds. *)
Example scenario_2x2 :
  value (getWeight bag_2x2) = Returned (float_of_Z 0)
  ∧ value (getCount bag_2x2) = Returned 0%Z
  ∧ value ((store 0 0 sword;; getCount) bag_2x2) = Returned 1%Z
  ∧ value ((store 0 0 sword;; getWeight) bag_2x2) = Returned (float_of_Z 5)
  ∧ value ((store 0 0 sword;; store 0 0 shield) bag_2x2) = Returned false
  ∧ value ((store 0 0 sword;; store 0 0 shield;; at_ 0 0) bag_2x2)
    = Returned sword
  ∧ value (at_ 5 5 bag_2x2) = Thrown (out_of_range "Index out of bounds").
Proof. by vm_compute. Qed.

(** A jagged grid: each row is checked against its own length, the scan of
    the constructor covers every row, and the equipped shield is left out
    of the aggregates until it is discarded from the heap. *)
Example jagged_grid :
  value (at_ 1 2 jagged) = Returned anvil
  ∧ value (at_ 0 1 jagged) = Thrown (out_of_range "Index out of bounds")
  ∧ value (at_ 2 0 jagged) = Thrown (out_of_range "Index out of bounds")
  ∧ value (at_ 3 0 jagged) = Thrown (out_of_range "Index out of bounds")
  ∧ value (getCount jagged) = Returned 3%Z
  ∧ value (getWeight jagged) = Returned (float_of_Z 100000008)
  ∧ value (getEquipped jagged) = Returned 8%N
  ∧ value ((discardEquipped;; getEquipped) jagged) = Returned nullptr
  ∧ value ((discardEquipped;; discardEquipped;; getCount) jagged)
    = Returned 3%Z
  ∧ value ((equip 9%N;; discardEquipped) jagged) = Undefined.
Proof. by vm_compute. Qed.

(** A copy and a reference told apart: replacing the first row through a
    reference to the member changes what [at(0, 0)] returns, replacing it
    in the object received from [getItems] does not. *)
Example copy_versus_reference :
  value (on_inventory (at_ 0 0) (Caller jagged ∅)) = Returned sword
  ∧ (∃ c',
       mutate member_grid (λ g, <[0 := [shield]]> g) (Caller jagged ∅)
       = Returned ((), c')
       ∧ value (on_inventory (at_ 0 0) c') = Returned shield)
  ∧ (∃ c1 c2,
       getItems_into 7%N (Caller jagged ∅) = Returned (caller_grid 7%N, c1)
       ∧ mutate (caller_grid 7%N) (λ g, <[0 := [shield]]> g) c1
         = Returned ((), c2)
       ∧ deref (caller_grid 7%N) c2
         = Some [[shield]; [empty_slot; pebble; anvil]; []]
       ∧ value (on_inventory (at_ 0 0) c2) = Returned sword).
Proof.
  split_and!.
  - by vm_compute.
  - eexists. split; [reflexivity|]. by vm_compute.
  - eexists _, _. split_and!; [reflexivity|reflexivity|by vm_compute|].
    by vm_compute.
Qed.


(** ** The theorems at concrete inputs *)


(** The sword goes into the empty cell (0,0) of the 2x2 grid. *)
Lemma store_on_empty_witness :
  inventory_grid_ (this bag_2x2) !! 0 = Some [empty_slot; empty_slot]
  ∧ [empty_slot; empty_slot] !! 0 = Some empty_slot
  ∧ Item.type_ empty_slot = NONE
  ∧ ∃ w',
      store 0 0 sword bag_2x2 = Returned (true, w')
      ∧ inventory_grid_ (this w')
        = <[0 := <[0 := sword]> [empty_slot; empty_slot]]>
            (inventory_grid_ (this bag_2x2))
      ∧ item_count_ (this w') = size_t_incr (item_count_ (this bag_2x2))
      ∧ ((0 ≤ item_count_ (this bag_2x2) < size_t_modulus - 1)%Z →
         item_count_ (this w') = (item_count_ (this bag_2x2) + 1)%Z)
      ∧ weight_ (this w')
        = w_add (weight_ (this bag_2x2)) (Item.weight_ sword)
      ∧ at_ 0 0 w' = Returned (sword, w').
Proof.
  split_and!; [reflexivity|reflexivity|reflexivity|].
  apply (store_on_empty bag_2x2 0 0 [empty_slot; empty_slot] empty_slot sword);
    reflexivity.
Defined.

(** The shield is refused at (0,1) of a row that holds two swords. *)
Lemma store_on_occupied_witness :
  inventory_grid_ (this swords) !! 0 = Some [sword; sword]
  ∧ [sword; sword] !! 1 = Some sword
  ∧ Item.type_ sword ≠ NONE
  ∧ store 0 1 shield swords = Returned (false, swords).
Proof.
  split_and!; [reflexivity|reflexivity|discriminate|].
  apply (store_on_occupied swords 0 1 [sword; sword] sword shield);
    [reflexivity|reflexivity|discriminate].
Defined.

(** * Further properties of the constructor and the equipped slot *)

Section ConstructorFacts.
Context {W : Type} `{Weight W} `{WeightValue W}.
Implicit Types (g items : list (list (Item W))) (r : list (Item W)).
Implicit Types (it : Item W) (equipped : ptr).

(** Both aggregates as the scan leaves them, in terms of the items met. *)
Lemma ctor_aggregates items equipped :
  weight_ (ctor items equipped)
  = foldl w_add w_zero (Item.weight_ <$> occupied items)
  ∧ item_count_ (ctor items equipped)
    = Nat.iter (length (occupied items)) size_t_incr 0%Z.
Proof. unfold ctor, scan. simpl. by rewrite scan_rows_spec. Qed.

Lemma iter_size_t_incr_wrap (n : nat) :
  Nat.iter n size_t_incr 0%Z = size_t_wrap (Z.of_nat n).
Proof.
  induction n as [|n IH]; [done|].
  simpl Nat.iter. rewrite IH. unfold size_t_incr, size_t_wrap.
  rewrite Zplus_mod_idemp_l. f_equal. lia.
Qed.

Lemma occupied_app g1 g2 : occupied (g1 ++ g2) = occupied g1 ++ occupied g2.
Proof. unfold occupied. by rewrite concat_app, filter_app. Qed.

Lemma occupied_all_none g :
  Forall (Forall (λ it, Item.type_ it = NONE)) g → occupied g = [].
Proof.
  unfold occupied. induction 1 as [|r g Hr _ IH]; [done|].
  simpl. rewrite filter_app, IH, app_nil_r.
  induction Hr as [|it r Hit _ IHr]; [done|].
  rewrite filter_cons_False by (by intros []). done.
Qed.

Lemma length_filter_all {A} (P : A → Prop) `{∀ x, Decision (P x)}
    (l : list A) :
  length (filter P l) = length l ↔ Forall P l.
Proof.
  induction l as [|x l IH].
  - split; [constructor|done].
  - destruct (decide (P x)) as [Hx|Hx].
    + rewrite filter_cons_True by done. simpl. rewrite Forall_cons.
      split.
      * intros [= Hlen]. split; [done|]. by apply IH.
      * intros [_ Hl]. f_equal. by apply IH.
    + rewrite filter_cons_False by done. simpl. rewrite Forall_cons.
      pose proof (length_filter P l). split; [lia|]. by intros [? _].
Qed.

Lemma sum_values_perm (ws ws' : list W) :
  ws ≡ₚ ws' → sum_values ws = sum_values ws'.
Proof.
  induction 1 as [|x ws ws' _ IH|x y ws|ws ws' ws'' _ IH1 _ IH2]; simpl.
  - done.
  - by rewrite IH.
  - rewrite !add_values_assoc. f_equal. apply add_values_comm.
  - by rewrite IH1.
Qed.

(** X1. A grid without items, of any shape (no rows, empty rows, rows of
    NONE-type cells of any weight), is constructed with weight zero and
    count zero. *)
Theorem ctor_all_none items equipped :
  Forall (Forall (λ it, Item.type_ it = NONE)) items →
  weight_ (ctor items equipped) = w_zero
  ∧ item_count_ (ctor items equipped) = 0%Z.
Proof.
  intros Hnone. destruct (ctor_aggregates items equipped) as [-> ->].
  by rewrite occupied_all_none.
Qed.

(** X2. The count set by the constructor is the number of cells whose type
    is not NONE reduced modulo [2 ^ 64], and so always a [size_t] value. *)
Theorem ctor_count_wraps items equipped :
  item_count_ (ctor items equipped) = size_t_wrap (grid_count items)
  ∧ (0 ≤ item_count_ (ctor items equipped) < size_t_modulus)%Z.
Proof.
  destruct (ctor_aggregates items equipped) as [_ ->].
  rewrite iter_size_t_incr_wrap. split; [done|].
  apply Z.mod_pos_bound. reflexivity.
Qed.

(** X3. The aggregates depend on nothing but the items met in row-major
    order: two grids with the same sequence of non-NONE cells, whatever
    their shapes, their empty cells and the pointers given, are constructed
    with the same weight and the same count. *)
Theorem ctor_same_items g1 g2 equipped1 equipped2 :
  occupied g1 = occupied g2 →
  weight_ (ctor g1 equipped1) = weight_ (ctor g2 equipped2)
  ∧ item_count_ (ctor g1 equipped1) = item_count_ (ctor g2 equipped2).
Proof.
  intros Hsame.
  destruct (ctor_aggregates g1 equipped1) as [-> ->].
  destruct (ctor_aggregates g2 equipped2) as [-> ->].
  by rewrite Hsame.
Qed.


(** X5. For a grid of fewer than [2 ^ 64] cells the count set by the
    constructor is at most the number of cells, and it is the number of
    cells exactly when no cell is of type NONE. *)
Theorem ctor_count_full items equipped :
  (grid_cells items < size_t_modulus)%Z →
  (item_count_ (ctor items equipped) ≤ grid_cells items)%Z
  ∧ (item_count_ (ctor items equipped) = grid_cells items
     ↔ Forall (Forall (λ it, Item.type_ it ≠ NONE)) items).
Proof.
  intros Hfit. rewrite (ctor_count _ _ Hfit).
  pose proof (grid_count_le_cells items) as Hle. split; [lia|].
  unfold grid_count, grid_cells, occupied.
  rewrite <- Forall_concat, <- length_filter_all. apply Nat2Z.inj_iff.
Qed.

(** X6. The scan runs on from row to row: the aggregates of a grid with
    further rows appended are those of the grid, with the weights of the
    items of the further rows added on in order and the two counts added
    modulo [2 ^ 64]. *)
Theorem ctor_app g1 g2 equipped :
  weight_ (ctor (g1 ++ g2) equipped)
  = foldl w_add (weight_ (ctor g1 equipped))
          (Item.weight_ <$> occupied g2)
  ∧ item_count_ (ctor (g1 ++ g2) equipped)
    = size_t_wrap (item_count_ (ctor g1 equipped)
                   + item_count_ (ctor g2 equipped)).
Proof.
  destruct (ctor_aggregates (g1 ++ g2) equipped) as [-> ->].
  destruct (ctor_aggregates g1 equipped) as [-> ->].
  destruct (ctor_aggregates g2 equipped) as [_ ->].
  rewrite occupied_app, fmap_app, foldl_app, length_app. split; [done|].
  rewrite !iter_size_t_incr_wrap. unfold size_t_wrap.
  rewrite <- Zplus_mod. f_equal. lia.
Qed.
End ConstructorFacts.

Section SlotFacts.
Context {W : Type} `{Weight W}.
Implicit Types (w : world W) (items : list (list (Item W))) (p : ptr).

(** X7. What the constructor is given is what the accessors give back:
    [getItems()] returns the grid, [getEquipped()] the pointer, and
    [at(row, col)] the cell of the grid given at that index, or
    [out_of_range] where the grid given has no such cell. *)
Theorem ctor_round_trip items equipped h row col :
  value (getItems (World (ctor items equipped) h)) = Returned items
  ∧ value (getEquipped (World (ctor items equipped) h)) = Returned equipped
  ∧ value (at_ row col (World (ctor items equipped) h))
    = match items !! row ≫= (λ r, r !! col) with
      | Some it => Returned it
      | None => Thrown (out_of_range "Index out of bounds")
      end.
Proof.
  split_and!; [done|done|].
  destruct (index_cases items row col)
    as [(r & it & Hr & Hit)|[Hrow|(r & Hr & Hcol)]].
  - rewrite (at_in_bounds _ _ _ r it) by done.
    rewrite Hr. simpl. by rewrite Hit.
  - rewrite at_row_out by done. by rewrite (lookup_ge_None_2 items row).
  - rewrite (at_col_out _ _ _ r) by done.
    rewrite Hr. simpl. by rewrite (lookup_ge_None_2 r col).
Qed.

(** X8. [discardEquipped()] never throws, and it returns exactly when the
    slot is empty or points to a live object; with any other pointer in
    the slot the [delete] is undefined. *)
Theorem discardEquipped_defined w :
  (∀ e, discardEquipped w ≠ Thrown e)
  ∧ ((∃ w', discardEquipped w = Returned ((), w'))
     ↔ equipped_ (this w) = nullptr
       ∨ is_Some (heap w !! equipped_ (this w)))
  ∧ (discardEquipped w = Undefined
     ↔ equipped_ (this w) ≠ nullptr
       ∧ heap w !! equipped_ (this w) = None).
Proof.
  destruct (decide (equipped_ (this w) = nullptr)) as [Hnull|Hp].
  - rewrite discardEquipped_null by done. split_and!.
    + done.
    + split; [by left|]. by eexists.
    + split; [done|]. by intros [].
  - destruct (heap w !! equipped_ (this w)) as [it|] eqn:Hlive.
    + rewrite (discardEquipped_owned _ it) by done. split_and!.
      * done.
      * split; [by right|]. by eexists.
      * split; [done|]. by intros [].
    + rewrite discardEquipped_dangling by done. split_and!.
      * done.
      * split; [by intros []|]. intros [?|[? ?]]; done.
      * done.
Qed.

(** X9. Discarding twice is discarding once: the slot is reset to
    [nullptr] before the second call, which then deletes nothing. *)
Theorem discardEquipped_idempotent w :
  (discardEquipped;; discardEquipped) w = discardEquipped w.
Proof.
  unfold mbind at 1, M_bind.
  destruct (decide (equipped_ (this w) = nullptr)) as [Hnull|Hp].
  - rewrite discardEquipped_null by done. by apply discardEquipped_null.
  - destruct (heap w !! equipped_ (this w)) as [it|] eqn:Hlive.
    + rewrite (discardEquipped_owned _ it) by done.
      by apply discardEquipped_null.
    + by rewrite discardEquipped_dangling.
Qed.

(** X10. [discardEquipped()] releases nothing but the equipped item: the
    heap only shrinks, and every object at another address is still there,
    unchanged. *)
Theorem discardEquipped_heap_frame w w' :
  discardEquipped w = Returned ((), w') →
  heap w' ⊆ heap w
  ∧ ∀ p, p ≠ equipped_ (this w) → heap w' !! p = heap w !! p.
Proof.
  destruct (decide (equipped_ (this w) = nullptr)) as [Hnull|Hp].
  - rewrite discardEquipped_null by done. by intros [= <-].
  - destruct (heap w !! equipped_ (this w)) as [it|] eqn:Hlive.
    + rewrite (discardEquipped_owned _ it) by done. intros [= <-]. simpl.
      split; [apply delete_subseteq|].
      intros p Hne. by apply lookup_delete_ne.
    + by rewrite discardEquipped_dangling.
Qed.

(** X11. [equip] does not deallocate the item it replaces: after
    [equip(x)] and [discardEquipped()] the new item is released and the
    slot is empty, while the item equipped before is still on the heap,
    and no further [discardEquipped()] releases it. *)
Theorem equip_discard_leaks w x ix old iold :
  x ≠ nullptr → heap w !! x = Some ix →
  equipped_ (this w) = old → old ≠ x → heap w !! old = Some iold →
  ∃ w',
    (equip x;; discardEquipped) w = Returned ((), w')
    ∧ equipped_ (this w') = nullptr
    ∧ heap w' !! x = None
    ∧ heap w' !! old = Some iold
    ∧ discardEquipped w' = Returned ((), w').
Proof.
  intros Hx Hlive Hold Hne Holdlive.
  unfold mbind, M_bind. rewrite equip_run.
  rewrite (discardEquipped_owned _ ix) by done. simpl.
  eexists. split; [done|]. simpl. split_and!.
  - done.
  - apply lookup_delete_eq.
  - by rewrite lookup_delete_ne.
  - by apply discardEquipped_null.
Qed.

(** X12. Equipping a pointer again after it has been discarded and
    discarding once more deletes the address a second time: whatever the
    state, the sequence ends in undefined behaviour. *)
Theorem reequip_discarded_undefined w p :
  p ≠ nullptr →
  (equip p;; discardEquipped;; equip p;; discardEquipped) w = Undefined.
Proof.
  intros Hp. unfold mbind at 1, M_bind. rewrite equip_run.
  unfold mbind at 1, M_bind.
  destruct (heap w !! p) as [it|] eqn:Hlive.
  - rewrite (discardEquipped_owned _ it) by done. simpl.
    unfold mbind at 1, M_bind. rewrite equip_run. simpl.
    apply discardEquipped_dangling; simpl; [done|].
    apply lookup_delete_eq.
  - by rewrite discardEquipped_dangling.
Qed.
End SlotFacts.

(** ** The further properties at concrete inputs *)

Lemma ctor_all_none_witness :
  Forall (Forall (λ it : Item float, Item.type_ it = NONE)) empty_2x2
  ∧ weight_ (ctor empty_2x2 nullptr) = w_zero
  ∧ item_count_ (ctor empty_2x2 nullptr) = 0%Z.
Proof.
  assert (Hnone :
    Forall (Forall (λ it : Item float, Item.type_ it = NONE)) empty_2x2)
    by repeat constructor.
  split; [exact Hnone|]. exact (ctor_all_none empty_2x2 nullptr Hnone).
Defined.

(** Two pebbles behind an empty slot in one row, and the same two pebbles
    spread over three rows. *)
Lemma ctor_same_items_witness :
  occupied [[empty_slot; pebble; pebble]]
  = occupied [[pebble]; []; [pebble; empty_slot]]
  ∧ weight_ (ctor [[empty_slot; pebble; pebble]] nullptr)
    = weight_ (ctor [[pebble]; []; [pebble; empty_slot]] 8%N)
  ∧ item_count_ (ctor [[empty_slot; pebble; pebble]] nullptr)
    = item_count_ (ctor [[pebble]; []; [pebble; empty_slot]] 8%N).
Proof.
  split; [reflexivity|].
  apply (ctor_same_items [[empty_slot; pebble; pebble]]
           [[pebble]; []; [pebble; empty_slot]] nullptr 8%N).
  reflexivity.
Defined.


Lemma ctor_count_full_witness :
  (grid_cells [[sword; sword]] < size_t_modulus)%Z
  ∧ (item_count_ (ctor [[sword; sword]] nullptr)
     ≤ grid_cells [[sword; sword]])%Z
  ∧ (item_count_ (ctor [[sword; sword]] nullptr) = grid_cells [[sword; sword]]
     ↔ Forall (Forall (λ it : Item float, Item.type_ it ≠ NONE))
              [[sword; sword]]).
Proof.
  split; [reflexivity|].
  apply (ctor_count_full [[sword; sword]] nullptr). reflexivity.
Defined.

(** The shield equipped in [jagged] is discarded. *)
Lemma discardEquipped_heap_frame_witness :
  discardEquipped jagged
  = Returned ((), World (set_equipped nullptr (this jagged))
                        (delete 8%N (heap jagged)))
  ∧ delete 8%N (heap jagged) ⊆ heap jagged
  ∧ ∀ p, p ≠ 8%N → delete 8%N (heap jagged) !! p = heap jagged !! p.
Proof.
  assert (Hrun :
    discardEquipped jagged
    = Returned ((), World (set_equipped nullptr (this jagged))
                          (delete 8%N (heap jagged)))).
  { apply (discardEquipped_owned jagged shield); [discriminate|reflexivity]. }
  split; [exact Hrun|].
  exact (discardEquipped_heap_frame jagged _ Hrun).
Defined.

(** The shield at address 8 is equipped, the sword at address 9 replaces
    it and is discarded: the shield stays on the heap. *)
Lemma equip_discard_leaks_witness :
  9%N ≠ nullptr
  ∧ ({[ 8%N := shield; 9%N := sword ]} : gmap N (Item float)) !! 9%N
    = Some sword
  ∧ equipped_ (ctor ([] : list (list (Item float))) 8%N) = 8%N
  ∧ 8%N ≠ 9%N
  ∧ ({[ 8%N := shield; 9%N := sword ]} : gmap N (Item float)) !! 8%N
    = Some shield
  ∧ ∃ w',
      (equip 9%N;; discardEquipped)
        (World (ctor [] 8%N) {[ 8%N := shield; 9%N := sword ]})
      = Returned ((), w')
      ∧ equipped_ (this w') = nullptr
      ∧ heap w' !! 9%N = None
      ∧ heap w' !! 8%N = Some shield
      ∧ discardEquipped w' = Returned ((), w').
Proof.
  split_and!; [discriminate|reflexivity|reflexivity|discriminate|reflexivity|].
  apply (equip_discard_leaks
           (World (ctor [] 8%N) {[ 8%N := shield; 9%N := sword ]})
           9%N sword 8%N shield);
    [discriminate|reflexivity|reflexivity|discriminate|reflexivity].
Defined.

Lemma reequip_discarded_undefined_witness :
  8%N ≠ nullptr
  ∧ (equip 8%N;; discardEquipped;; equip 8%N;; discardEquipped) jagged
    = Undefined.
Proof.
  split; [discriminate|].
  apply (reequip_discarded_undefined jagged 8%N). discriminate.
Defined.

Section ReadFacts.
Context {W : Type} `{Weight W}.
Implicit Types (w : world W) (it : Item W) (row col : nat).

(** X13. The columns [at] accepts in a row form an initial segment: where
    [at(row, col)] returns, it returns for every smaller column of that row
    as well, so a row can be read from column 0 up to the first
    [out_of_range]. *)
Theorem at_prefix_closed w row col col' it :
  value (at_ row col w) = Returned it → col' ≤ col →
  ∃ it', at_ row col' w = Returned (it', w).
Proof.
  intros Hat Hle.
  destruct (index_cases (inventory_grid_ (this w)) row col)
    as [(r & it0 & Hr & Hit)|[Hrow|(r & Hr & Hcol)]].
  - apply lookup_lt_Some in Hit.
    destruct (lookup_lt_is_Some_2 r col') as [it' Hit']; [lia|].
    exists it'. by apply (at_in_bounds _ _ _ r).
  - by rewrite at_row_out in Hat.
  - by rewrite (at_col_out _ _ _ r) in Hat.
Qed.
End ReadFacts.

Lemma at_prefix_closed_witness :
  value (at_ 1 2 jagged) = Returned anvil
  ∧ 1 ≤ 2
  ∧ ∃ it', at_ 1 1 jagged = Returned (it', jagged).
Proof.
  split; [reflexivity|]. split; [repeat constructor|].
  apply (at_prefix_closed jagged 1 2 1 anvil); [reflexivity|repeat constructor].
Defined.
